(** * divide.cpp: a command-line integer divider

    A shallow embedding of [src/divide.cpp] and a verification of its
    specification.  The translation unit has two functions, [divide] and
    [main]; [main] calls [printf], [std::stoi] and [divide].

    - [int] is modelled as [Z] restricted to the 32-bit two's complement
      range; signed arithmetic does not wrap in C++: a result outside of
      the range is undefined behaviour ([expr.pre]/4), as is a zero divisor
      ([expr.mul]/4).
    - A computation either returns, throws, or is undefined: the type
      [result].  [main] threads a log of the calls it performs (the type
      [event]) through its body, so that what is written to the standard
      output, and what is never evaluated, can be read off the log.
    - [std::stoi] and [printf] are library functions; they are modelled
      after their specification in the C and C++ standards ([strtol],
      [string.conversions], [fprintf] with the [%d] directive). *)

From Stdlib Require Import ZArith List String Ascii Bool Lia.
Import ListNotations.

Local Open Scope string_scope.
Local Open Scope list_scope.
Local Open Scope Z_scope.

(** ** The native integer types *)

Module Int.

Definition bits : Z := 32.
Definition INT_MIN : Z := - 2 ^ (bits - 1).
Definition INT_MAX : Z := 2 ^ (bits - 1) - 1.

(** [long] is the type [strtol] computes in. *)
Definition long_bits : Z := 64.
Definition LONG_MIN : Z := - 2 ^ (long_bits - 1).
Definition LONG_MAX : Z := 2 ^ (long_bits - 1) - 1.

Definition representable (z : Z) : bool :=
  (INT_MIN <=? z) && (z <=? INT_MAX).

End Int.

Import Int.

(** ** Results of a computation *)

Inductive exception : Type :=
| invalid_argument
| out_of_range.

Inductive result (A : Type) : Type :=
| Ret (a : A)
| Throw (e : exception)
| Undefined.

Arguments Ret {A} a.
Arguments Throw {A} e.
Arguments Undefined {A}.

(** ** [divide] *)

(** The built-in [/] on [int]: the algebraic quotient with the fractional
    part discarded; undefined when the divisor is zero or the quotient is
    not representable. *)
Definition int_div (x y : Z) : result Z :=
  if y =? 0 then Undefined
  else if representable (Z.quot x y) then Ret (Z.quot x y)
  else Undefined.

(** [int divide(int x, int y) { return x / y; }] *)
Definition divide (x y : Z) : result Z := int_div x y.

(** What the specification calls truncating division, written without
    reference to [Z.quot]: the magnitude is the floor of the ratio of the
    magnitudes, the sign is the product of the signs. *)
Definition truncated_quotient (x y : Z) : Z :=
  Z.sgn x * Z.sgn y * (Z.abs x / Z.abs y).

(** ** [std::stoi] *)

Definition isspace (c : ascii) : bool :=
  let n := Z.of_N (N_of_ascii c) in
  (n =? 32) || ((9 <=? n) && (n <=? 13)).

Definition isdigit (c : ascii) : bool :=
  let n := Z.of_N (N_of_ascii c) in
  (48 <=? n) && (n <=? 57).

Definition digit_value (c : ascii) : Z := Z.of_N (N_of_ascii c) - 48.

Fixpoint skip_space (s : string) : string :=
  match s with
  | String c s' => if isspace c then skip_space s' else s
  | EmptyString => s
  end.

(** The values of the longest prefix of decimal digits. *)
Fixpoint digits_prefix (s : string) : list Z :=
  match s with
  | String c s' => if isdigit c then digit_value c :: digits_prefix s' else []
  | EmptyString => []
  end.

Definition value_of (ds : list Z) : Z :=
  fold_left (fun a d => 10 * a + d) ds 0.

(** What [strtol(nptr, &endptr, 10)] reports: the value, whether
    [endptr != nptr], and whether [errno] was set to [ERANGE]. *)
Record strtol_result : Type := {
  value : Z;
  converted : bool;
  erange : bool
}.

Definition split_sign (s : string) : bool * string :=
  match s with
  | String c s' =>
      if Ascii.eqb c "-" then (true, s')
      else if Ascii.eqb c "+" then (false, s')
      else (false, s)
  | EmptyString => (false, s)
  end.

Definition strtol (s : string) : strtol_result :=
  let (neg, body) := split_sign (skip_space s) in
  match digits_prefix body with
  | [] => {| value := 0; converted := false; erange := false |}
  | ds =>
      let v := if neg then - value_of ds else value_of ds in
      if LONG_MAX <? v then
        {| value := LONG_MAX; converted := true; erange := true |}
      else if v <? LONG_MIN then
        {| value := LONG_MIN; converted := true; erange := true |}
      else {| value := v; converted := true; erange := false |}
  end.

(** [std::stoi(str)]: [strtol] in base 10 on the text; [invalid_argument]
    when no conversion could be performed, [out_of_range] when [strtol]
    reports [ERANGE] or the value is outside of the range of [int].  The
    text after the number is ignored. *)
Definition stoi (s : string) : result Z :=
  let r := strtol s in
  if negb (converted r) then Throw invalid_argument
  else if erange r || (value r <? INT_MIN) || (INT_MAX <? value r)
       then Throw out_of_range
  else Ret (value r).

(** ** [printf] *)

Definition nl : string := String (ascii_of_N 10) EmptyString.

Definition digit_char (d : Z) : ascii := ascii_of_N (Z.to_N (48 + d)).

(** The decimal digits of [n], most significant first, in front of [acc];
    [fuel] bounds the number of digits. *)
Fixpoint utoa (fuel : nat) (n : Z) (acc : string) : string :=
  match fuel with
  | O => acc
  | S fuel' =>
      let acc' := String (digit_char (n mod 10)) acc in
      if n / 10 =? 0 then acc' else utoa fuel' (n / 10) acc'
  end.

Definition digits_fuel (n : Z) : nat := S (Z.to_nat (Z.log2 n)).

(** The conversion [%d]. *)
Definition fmt_d (z : Z) : string :=
  if z <? 0 then String "-" (utoa (digits_fuel (- z)) (- z) EmptyString)
  else utoa (digits_fuel z) z EmptyString.

(** The output of a format with [%d] directives only; [None] when an
    argument is missing or another directive is used. *)
Fixpoint format (fmt : string) (args : list Z) : option string :=
  match fmt with
  | EmptyString => Some EmptyString
  | String c rest =>
      if Ascii.eqb c "%" then
        match rest with
        | String d rest' =>
            if Ascii.eqb d "d" then
              match args with
              | a :: args' =>
                  option_map (String.append (fmt_d a)) (format rest' args')
              | [] => None
              end
            else None
        | EmptyString => None
        end
      else option_map (String c) (format rest args)
  end.

(** ** The calls [main] performs *)

Inductive event : Type :=
| EPrintf (text : string)
| EStoi (str : string)
| EDivide (x y : Z).

Definition M (A : Type) : Type := (list event * result A)%type.

Definition ret {A} (a : A) : M A := ([], Ret a).

Definition bind {A B} (m : M A) (f : A -> M B) : M B :=
  match m with
  | (t, Ret a) => let (t', r) := f a in (t ++ t', r)
  | (t, Throw e) => (t, Throw e)
  | (t, Undefined) => (t, Undefined)
  end.

Notation "x <- m ;; k" := (bind m (fun x => k))
  (at level 61, m at next level, right associativity).
Notation "m ;;; k" := (bind m (fun _ => k))
  (at level 61, right associativity).

Definition call {A} (e : event) (r : result A) : M A := ([e], r).

Definition printf (fmt : string) (args : list Z) : M unit :=
  match format fmt args with
  | Some text => call (EPrintf text) (Ret tt)
  | None => ([], Undefined)
  end.

(** [argv[i]]; reading past the end of the vector is undefined. *)
Definition index (argv : list string) (i : nat) : M string :=
  match nth_error argv i with
  | Some s => ret s
  | None => ([], Undefined)
  end.

Definition usage : string :=
  String.append "Two integer arguments required" nl.

Definition equation : string :=
  String.append "%d / %d = %d" nl.

(** [int main(int argc, char** argv)].  Flowing off the end of [main] is
    [return 0] ([basic.start.main]/5). *)
Definition main (argc : Z) (argv : list string) : M Z :=
  if negb (argc =? 3) then
    printf usage [] ;;;
    ret (-1)
  else
    a1 <- index argv 1 ;;
    x <- call (EStoi a1) (stoi a1) ;;
    a2 <- index argv 2 ;;
    y <- call (EStoi a2) (stoi a2) ;;
    z <- call (EDivide x y) (divide x y) ;;
    printf equation [x; y; z] ;;;
    ret 0.

(** The program started with the name [prog] and the arguments [args]:
    [argv] holds the name followed by the arguments, [argc] is its length. *)
Definition invoke (prog : string) (args : list string) : M Z :=
  main (Z.of_nat (S (List.length args))) (prog :: args).

(** What was written to the standard output. *)
Fixpoint stdout (t : list event) : string :=
  match t with
  | [] => EmptyString
  | EPrintf text :: t' => String.append text (stdout t')
  | _ :: t' => stdout t'
  end.

(** The status the parent process observes for a value returned from
    [main]: its low eight bits. *)
Definition exit_status (code : Z) : Z := Z.land code 255.

(** ** What the environment may observe *)



(** ** Reading a numeral off a text, as a specification of [stoi] *)

(** The digits [stoi] looks at: those after the white space and the sign. *)
Definition numeral_digits (s : string) : list Z :=
  digits_prefix (snd (split_sign (skip_space s))).

(** The integer the text denotes. *)
Definition numeral_value (s : string) : Z :=
  if fst (split_sign (skip_space s)) then - value_of (numeral_digits s)
  else value_of (numeral_digits s).

(** The text does not start with a number, or with one too large for
    [int]. *)
Definition unparsable (s : string) : Prop :=
  numeral_digits s = [] \/ representable (numeral_value s) = false.

(** ** Auxiliary definitions of the proofs *)

(** The remainder left by [q] is smaller than the divisor and has the sign
    of the dividend: [q] is the quotient rounded toward zero. *)
Definition rounds_toward_zero (x y q : Z) : Prop :=
  exists r, x = y * q + r /\ Z.abs r < Z.abs y /\ 0 <= r * x.

(** The line printed for the operands [x], [y] and the result [z]. *)
Definition result_line (x y z : Z) : string :=
  String.append (fmt_d x) (String.append " / "
    (String.append (fmt_d y) (String.append " = "
      (String.append (fmt_d z) nl)))).

(** The argument lists on which the run of [main] contains an undefined
    operation: two numerals are read and the division of the first by the
    second is undefined. *)
Definition undefined_input (args : list string) : bool :=
  match args with
  | [a1; a2] =>
      match stoi a1, stoi a2 with
      | Ret x, Ret y => (y =? 0) || ((x =? INT_MIN) && (y =? -1))
      | _, _ => false
      end
  | _ => false
  end.

(** [utoa] on digit values instead of characters. *)
Fixpoint udigits (fuel : nat) (n : Z) (acc : list Z) : list Z :=
  match fuel with
  | O => acc
  | S fuel' =>
      let acc' := n mod 10 :: acc in
      if n / 10 =? 0 then acc' else udigits fuel' (n / 10) acc'
  end.

(** A valid base-10 integer as the specification words it, to be compared
    with what [stoi] accepts: an optional sign followed by one or more
    decimal digits and nothing else. *)
Fixpoint all_digits (s : string) : bool :=
  match s with
  | EmptyString => true
  | String c s' => isdigit c && all_digits s'
  end.

Definition base10_integer_text (s : string) : bool :=
  let body :=
    match s with
    | String c s' => if Ascii.eqb c "-" || Ascii.eqb c "+" then s' else s
    | EmptyString => s
    end in
  match body with
  | EmptyString => false
  | String _ _ => all_digits body
  end.

(** The number of newline characters of a text. *)
Fixpoint count_newlines (s : string) : nat :=
  match s with
  | EmptyString => 0
  | String c s' =>
      ((if Ascii.eqb c (ascii_of_N 10) then 1 else 0) + count_newlines s')%nat
  end.

(** The quotient rounded toward minus infinity, moved one up when it was
    rounded at all and the operands have opposite signs. *)
Definition floor_adjusted (x y : Z) : Z :=
  if (Z.sgn x =? Z.sgn y) || (x mod y =? 0) then x / y else x / y + 1.

(** The exception [stoi] throws on a text it cannot convert. *)
Definition stoi_exception (s : string) : exception :=
  match numeral_digits s with
  | [] => invalid_argument
  | _ :: _ => out_of_range
  end.

(** ** Evaluation on concrete inputs *)

Example fmt_d_0 : fmt_d 0 = "0".
Proof. reflexivity. Qed.

Example fmt_d_min : fmt_d INT_MIN = "-2147483648".
Proof. reflexivity. Qed.

Example fmt_d_max : fmt_d INT_MAX = "2147483647".
Proof. reflexivity. Qed.

Example stoi_min : stoi "-2147483648" = Ret INT_MIN.
Proof. reflexivity. Qed.

Example stoi_over : stoi "2147483648" = Throw out_of_range.
Proof. reflexivity. Qed.

Example stoi_huge : stoi "99999999999999999999999" = Throw out_of_range.
Proof. reflexivity. Qed.

Example stoi_abc : stoi "abc" = Throw invalid_argument.
Proof. reflexivity. Qed.

Example stoi_empty : stoi "" = Throw invalid_argument.
Proof. reflexivity. Qed.

Example stoi_sign_only : stoi "-" = Throw invalid_argument.
Proof. reflexivity. Qed.

(** White space and a [+] in front of the number and any text after it are
    accepted. *)
Example stoi_trailing : stoi "  +12abc" = Ret 12.
Proof. reflexivity. Qed.

Example invoke_min_neg1 :
  invoke "divide" ["-2147483648"; "-1"]
  = ([EStoi "-2147483648"; EStoi "-1"; EDivide INT_MIN (-1)], Undefined).
Proof. reflexivity. Qed.

(** ** The range of [int] *)

Lemma representable_iff z :
  representable z = true <-> INT_MIN <= z <= INT_MAX.
Proof.
  unfold representable. rewrite andb_true_iff, !Z.leb_le. tauto.
Qed.

(** ** Integer division *)

Lemma quot_is_truncated x y :
  y <> 0 -> Z.quot x y = truncated_quotient x y.
Proof. intros Hy. unfold truncated_quotient. now apply Z.quot_div. Qed.

Lemma abs_quot_le x y :
  y <> 0 -> Z.abs (Z.quot x y) = Z.abs x / Z.abs y.
Proof.
  intros Hy. rewrite <- Z.quot_abs by assumption.
  apply Z.quot_div_nonneg; lia.
Qed.

Lemma quot_representable x y :
  representable x = true -> representable y = true -> y <> 0 ->
  ~ (x = INT_MIN /\ y = -1) ->
  representable (Z.quot x y) = true.
Proof.
  rewrite !representable_iff.
  change INT_MIN with (-2147483648). change INT_MAX with 2147483647.
  intros Hx Hy Hy0 Hne.
  destruct (Z.eq_dec y 1) as [-> | H1].
  { rewrite Z.quot_1_r. lia. }
  destruct (Z.eq_dec y (-1)) as [-> | H2].
  { change (-1) with (- (1)). rewrite Z.quot_opp_r, Z.quot_1_r by lia. lia. }
  assert (Hq : Z.abs (Z.quot x y) <= 1073741824).
  { rewrite abs_quot_le by assumption.
    apply Z.div_le_upper_bound; lia. }
  lia.
Qed.

Lemma divide_defined x y :
  y <> 0 -> representable (truncated_quotient x y) = true ->
  divide x y = Ret (truncated_quotient x y).
Proof.
  intros Hy Hr. unfold divide, int_div.
  destruct (Z.eqb_spec y 0) as [|_]; [contradiction|].
  rewrite quot_is_truncated by assumption. now rewrite Hr.
Qed.

Lemma divide_by_zero x : divide x 0 = Undefined.
Proof. reflexivity. Qed.

Lemma divide_ret_inv x y z :
  divide x y = Ret z ->
  y <> 0 /\ z = truncated_quotient x y /\ representable z = true.
Proof.
  unfold divide, int_div.
  destruct (Z.eqb_spec y 0) as [|Hy]; [discriminate|].
  destruct (representable (Z.quot x y)) eqn:Hr; [|discriminate].
  intros [= <-]. rewrite <- quot_is_truncated by assumption. auto.
Qed.

Lemma divide_never_throws x y e : divide x y <> Throw e.
Proof.
  unfold divide, int_div.
  destruct (y =? 0); [discriminate|].
  destruct (representable (Z.quot x y)); discriminate.
Qed.

(** ** [stoi] against the numeral the text starts with *)

Lemma stoi_spec s :
  stoi s =
  match numeral_digits s with
  | [] => Throw invalid_argument
  | _ :: _ =>
      if representable (numeral_value s) then Ret (numeral_value s)
      else Throw out_of_range
  end.
Proof.
  unfold stoi, strtol, numeral_value, numeral_digits.
  destruct (split_sign (skip_space s)) as [neg body]. cbn [fst snd].
  destruct (digits_prefix body) as [|d ds]; [reflexivity|].
  set (v := if neg then _ else _).
  change LONG_MAX with 9223372036854775807.
  change LONG_MIN with (-9223372036854775808).
  unfold representable.
  change INT_MAX with 2147483647. change INT_MIN with (-2147483648).
  destruct (Z.ltb_spec 9223372036854775807 v);
    [|destruct (Z.ltb_spec v (-9223372036854775808))]; cbn;
    destruct (Z.leb_spec (-2147483648) v);
    destruct (Z.leb_spec v 2147483647);
    destruct (Z.ltb_spec v (-2147483648));
    destruct (Z.ltb_spec 2147483647 v);
    cbn; try reflexivity; lia.
Qed.

Lemma stoi_defined s : stoi s <> Undefined.
Proof.
  rewrite stoi_spec. destruct (numeral_digits s); [discriminate|].
  destruct (representable (numeral_value s)); discriminate.
Qed.

Lemma stoi_ret_inv s v :
  stoi s = Ret v ->
  numeral_digits s <> [] /\ v = numeral_value s /\ representable v = true.
Proof.
  rewrite stoi_spec. destruct (numeral_digits s); [discriminate|].
  destruct (representable (numeral_value s)) eqn:Hr; [|discriminate].
  intros [= <-]. repeat split; [discriminate | assumption].
Qed.

Lemma stoi_throws_iff s :
  (exists e, stoi s = Throw e) <-> unparsable s.
Proof.
  unfold unparsable. rewrite stoi_spec.
  destruct (numeral_digits s) as [|d ds].
  - split; [auto | intros _; now exists invalid_argument].
  - destruct (representable (numeral_value s)).
    + split; [intros [e He]; discriminate | intros [H | H]; discriminate].
    + split; [auto | intros _; now exists out_of_range].
Qed.

Lemma stoi_cases s :
  (exists v, stoi s = Ret v /\ representable v = true) \/
  (exists e, stoi s = Throw e /\ unparsable s).
Proof.
  destruct (stoi s) as [v | e |] eqn:Hs.
  - left. exists v. split; [reflexivity|]. now apply stoi_ret_inv in Hs.
  - right. exists e. split; [reflexivity|].
    apply stoi_throws_iff. now exists e.
  - now apply stoi_defined in Hs.
Qed.

(** ** [%d] prints a numeral that [stoi] reads back *)

Lemma digit_char_facts d :
  0 <= d <= 9 ->
  isdigit (digit_char d) = true /\ digit_value (digit_char d) = d /\
  isspace (digit_char d) = false /\
  Ascii.eqb (digit_char d) "-" = false /\
  Ascii.eqb (digit_char d) "+" = false.
Proof.
  intros Hd.
  assert (H : d = 0 \/ d = 1 \/ d = 2 \/ d = 3 \/ d = 4 \/
              d = 5 \/ d = 6 \/ d = 7 \/ d = 8 \/ d = 9) by lia.
  repeat (destruct H as [-> | H]; [now vm_compute|]). subst. now vm_compute.
Qed.

Lemma digits_prefix_utoa fuel : forall n acc,
  digits_prefix (utoa fuel n acc) = udigits fuel n (digits_prefix acc).
Proof.
  induction fuel as [|fuel IH]; intros n acc; [reflexivity|].
  pose proof (Z.mod_pos_bound n 10 ltac:(lia)) as Hm.
  destruct (digit_char_facts (n mod 10) ltac:(lia)) as (Hd & Hv & _).
  cbn [utoa udigits]. destruct (n / 10 =? 0).
  - cbn [digits_prefix]. now rewrite Hd, Hv.
  - rewrite IH. cbn [digits_prefix]. now rewrite Hd, Hv.
Qed.

Lemma value_udigits fuel : forall n acc,
  0 <= n < 10 ^ Z.of_nat fuel ->
  fold_left (fun a d => 10 * a + d) (udigits fuel n acc) 0
  = fold_left (fun a d => 10 * a + d) acc n.
Proof.
  induction fuel as [|fuel IH]; intros n acc Hn.
  - cbn in *. now replace n with 0 by lia.
  - cbn [udigits].
    pose proof (Z.div_mod n 10 ltac:(lia)) as Hdm.
    destruct (Z.eqb_spec (n / 10) 0) as [H0 | H0].
    + cbn [fold_left]. f_equal. lia.
    + rewrite IH.
      * cbn [fold_left]. f_equal. lia.
      * rewrite Nat2Z.inj_succ, Z.pow_succ_r in Hn by lia.
        split; [apply Z.div_pos; lia|].
        apply Z.div_lt_upper_bound; lia.
Qed.

Lemma udigits_length fuel : forall n acc,
  (List.length acc <= List.length (udigits fuel n acc))%nat.
Proof.
  induction fuel as [|fuel IH]; intros n acc; cbn [udigits]; [lia|].
  destruct (n / 10 =? 0); [cbn; lia|].
  etransitivity; [|apply IH]. cbn. lia.
Qed.

Lemma udigits_nonempty fuel n : udigits (S fuel) n [] <> [].
Proof.
  cbn [udigits]. destruct (n / 10 =? 0); [discriminate|].
  intros H. pose proof (udigits_length fuel (n / 10) [n mod 10]) as Hl.
  rewrite H in Hl. cbn in Hl. lia.
Qed.

Lemma digits_fuel_enough n :
  0 <= n -> n < 10 ^ Z.of_nat (digits_fuel n).
Proof.
  intros Hn. unfold digits_fuel.
  rewrite Nat2Z.inj_succ, Z2Nat.id by apply Z.log2_nonneg.
  destruct (Z.eq_dec n 0) as [-> | Hz]; [reflexivity|].
  apply Z.lt_le_trans with (2 ^ Z.succ (Z.log2 n)).
  - apply Z.log2_spec. lia.
  - apply Z.pow_le_mono_l. lia.
Qed.

Lemma utoa_head fuel : forall n acc,
  (exists d rest, 0 <= d <= 9 /\ acc = String (digit_char d) rest) ->
  exists d rest, 0 <= d <= 9 /\ utoa fuel n acc = String (digit_char d) rest.
Proof.
  induction fuel as [|fuel IH]; intros n acc Hacc; [exact Hacc|].
  pose proof (Z.mod_pos_bound n 10 ltac:(lia)) as Hm.
  cbn [utoa]. destruct (n / 10 =? 0).
  - exists (n mod 10), acc. split; [lia | reflexivity].
  - apply IH. exists (n mod 10), acc. split; [lia | reflexivity].
Qed.

Lemma utoa_numeral n :
  0 <= n ->
  let s := utoa (digits_fuel n) n EmptyString in
  skip_space s = s /\ split_sign s = (false, s) /\
  digits_prefix s <> [] /\ value_of (digits_prefix s) = n.
Proof.
  intros Hn s.
  assert (Hhead : exists d rest, 0 <= d <= 9 /\ s = String (digit_char d) rest).
  { subst s. unfold digits_fuel. cbn [utoa].
    pose proof (Z.mod_pos_bound n 10 ltac:(lia)) as Hm.
    destruct (n / 10 =? 0).
    - exists (n mod 10), EmptyString. split; [lia | reflexivity].
    - apply utoa_head. exists (n mod 10), EmptyString.
      split; [lia | reflexivity]. }
  destruct Hhead as (d & rest & Hd & Hs).
  destruct (digit_char_facts d Hd) as (_ & _ & Hsp & Hminus & Hplus).
  repeat split.
  - rewrite Hs. cbn [skip_space]. now rewrite Hsp.
  - rewrite Hs. unfold split_sign. now rewrite Hminus, Hplus.
  - subst s. rewrite digits_prefix_utoa. apply udigits_nonempty.
  - subst s. unfold value_of. rewrite digits_prefix_utoa.
    now rewrite value_udigits by (split; [lia | now apply digits_fuel_enough]).
Qed.

Lemma numeral_fmt_d z :
  numeral_digits (fmt_d z) <> [] /\ numeral_value (fmt_d z) = z.
Proof.
  unfold fmt_d, numeral_value, numeral_digits.
  destruct (Z.ltb_spec z 0) as [Hneg | Hpos].
  - destruct (utoa_numeral (- z) ltac:(lia)) as (_ & _ & Hne & Hv).
    cbn [skip_space]. change (isspace "-") with false.
    cbv iota. unfold split_sign. change (Ascii.eqb "-" "-") with true.
    cbn [fst snd]. split; [assumption | lia].
  - destruct (utoa_numeral z Hpos) as (Hsp & Hsg & Hne & Hv).
    rewrite Hsp, Hsg. cbn [fst snd]. split; assumption.
Qed.

(** Every [int] is printed as a text that [stoi] parses to the same
    [int]. *)
Lemma stoi_fmt_d z : representable z = true -> stoi (fmt_d z) = Ret z.
Proof.
  intros Hz. rewrite stoi_spec.
  destruct (numeral_fmt_d z) as [Hne Hv].
  destruct (numeral_digits (fmt_d z)); [contradiction|].
  now rewrite Hv, Hz.
Qed.

Lemma truncated_quotient_rounds_toward_zero x y :
  y <> 0 -> rounds_toward_zero x y (truncated_quotient x y).
Proof.
  intros Hy. rewrite <- quot_is_truncated by assumption.
  exists (Z.rem x y). repeat split.
  - apply Z.quot_rem'.
  - now apply Z.rem_bound_abs.
  - now apply Z.rem_sign_mul.
Qed.

(** ** The runs of [main] *)

Lemma format_usage : format usage [] = Some usage.
Proof. reflexivity. Qed.

Lemma format_equation x y z :
  format equation [x; y; z]
  = Some (result_line x y z).
Proof. reflexivity. Qed.

Lemma main_wrong_count argc argv :
  argc <> 3 -> main argc argv = ([EPrintf usage], Ret (-1)).
Proof.
  intros Hc. unfold main.
  destruct (Z.eqb_spec argc 3) as [|_]; [contradiction|].
  cbn [negb]. unfold printf. rewrite format_usage. reflexivity.
Qed.

Lemma main_two_arguments prog a1 a2 :
  main 3 [prog; a1; a2] =
  match stoi a1 with
  | Ret x =>
      match stoi a2 with
      | Ret y =>
          match divide x y with
          | Ret z =>
              ([EStoi a1; EStoi a2; EDivide x y; EPrintf (result_line x y z)],
               Ret 0)
          | Throw e => ([EStoi a1; EStoi a2; EDivide x y], Throw e)
          | Undefined => ([EStoi a1; EStoi a2; EDivide x y], Undefined)
          end
      | Throw e => ([EStoi a1; EStoi a2], Throw e)
      | Undefined => ([EStoi a1; EStoi a2], Undefined)
      end
  | Throw e => ([EStoi a1], Throw e)
  | Undefined => ([EStoi a1], Undefined)
  end.
Proof.
  unfold main. cbn [Z.eqb Pos.eqb negb index nth_error ret bind call app].
  destruct (stoi a1) as [x | e |]; try reflexivity.
  destruct (stoi a2) as [y | e |]; try reflexivity.
  destruct (divide x y) as [z | e |]; reflexivity.
Qed.

Lemma invoke_two_arguments prog a1 a2 :
  invoke prog [a1; a2] = main 3 [prog; a1; a2].
Proof. reflexivity. Qed.

Lemma invoke_wrong_count prog args :
  List.length args <> 2%nat ->
  invoke prog args = ([EPrintf usage], Ret (-1)).
Proof.
  intros Hl. unfold invoke. apply main_wrong_count. lia.
Qed.

Lemma invoke_ignores_name prog prog' args :
  invoke prog args = invoke prog' args.
Proof.
  destruct args as [|a1 [|a2 [|a3 args]]];
    try (rewrite !invoke_wrong_count by (cbn; lia); reflexivity).
  now rewrite !invoke_two_arguments, !main_two_arguments.
Qed.

Lemma append_empty_r s : String.append s EmptyString = s.
Proof. induction s as [|c s IH]; cbn; [reflexivity | now rewrite IH]. Qed.

Lemma divide_undefined_iff x y :
  representable x = true -> representable y = true ->
  divide x y = Undefined <-> y = 0 \/ (x = INT_MIN /\ y = -1).
Proof.
  intros Hx Hy. split.
  - intros Hd. destruct (Z.eq_dec y 0) as [|Hy0]; [now left|]. right.
    destruct (Z.eq_dec x INT_MIN) as [->|Hxm];
      destruct (Z.eq_dec y (-1)) as [->|Hym]; auto;
      rewrite divide_defined in Hd; try discriminate; try assumption;
      rewrite <- quot_is_truncated by assumption;
      apply quot_representable; tauto.
  - intros [-> | [-> ->]]; reflexivity.
Qed.

Lemma invoke_undefined_iff prog args :
  snd (invoke prog args) = Undefined <-> undefined_input args = true.
Proof.
  destruct args as [|a1 [|a2 [|a3 args]]];
    try (rewrite invoke_wrong_count by (cbn; lia); cbn; split; discriminate).
  rewrite invoke_two_arguments, main_two_arguments. cbn [undefined_input].
  destruct (stoi a1) as [x | e |] eqn:H1;
    [| cbn; split; discriminate | now apply stoi_defined in H1].
  destruct (stoi a2) as [y | e |] eqn:H2;
    [| cbn; split; discriminate | now apply stoi_defined in H2].
  apply stoi_ret_inv in H1 as (_ & _ & Hx).
  apply stoi_ret_inv in H2 as (_ & _ & Hy).
  rewrite orb_true_iff, andb_true_iff, !Z.eqb_eq.
  rewrite <- (divide_undefined_iff x y Hx Hy).
  destruct (divide x y) as [z | e |] eqn:Hd; cbn; split; congruence.
Qed.

(** * The specification *)

(** ** Division *)

(** C1, as stated, fails: the arguments [-2147483648] and [-1] parse as
    [INT_MIN] and [-1], two integers of type [int] of which the second is
    not zero, and [divide] returns no value on them, in particular not
    their truncated quotient. *)
Lemma divide_min_by_minus_one_returns_nothing :
  stoi "-2147483648" = Ret INT_MIN /\ stoi "-1" = Ret (-1) /\ -1 <> 0 /\
  forall z, divide INT_MIN (-1) <> Ret z.
Proof.
  split; [reflexivity|]. split; [reflexivity|]. split; [lia|].
  intros z. discriminate.
Qed.

(** C1, amended: for all [x] and [y] of type [int] with [y] nonzero, other
    than [x = INT_MIN] with [y = -1], [divide x y] returns the quotient of
    [x] by [y] rounded toward zero. *)
Theorem divide_truncates x y :
  representable x = true -> representable y = true -> y <> 0 ->
  ~ (x = INT_MIN /\ y = -1) ->
  divide x y = Ret (truncated_quotient x y) /\
  rounds_toward_zero x y (truncated_quotient x y).
Proof.
  intros Hx Hy Hy0 Hne. split.
  - apply divide_defined; [assumption|].
    rewrite <- quot_is_truncated by assumption.
    now apply quot_representable.
  - now apply truncated_quotient_rounds_toward_zero.
Qed.

(** The three divisions the specification lists: [7 / 2 = 3],
    [-7 / 2 = -3] and [7 / -2 = -3]. *)
Lemma divide_truncates_examples :
  divide 7 2 = Ret 3 /\ divide (-7) 2 = Ret (-3) /\ divide 7 (-2) = Ret (-3).
Proof.
  split; [|split].
  - apply (divide_truncates 7 2); [reflexivity | reflexivity | lia | lia].
  - apply (divide_truncates (-7) 2); [reflexivity | reflexivity | lia | lia].
  - apply (divide_truncates 7 (-2)); [reflexivity | reflexivity | lia | lia].
Defined.

(** C8: the postcondition of [divide] holds exactly when the quotient is
    representable.  Among the pairs of [int]s with a nonzero divisor,
    [INT_MIN] and [-1] is the one pair where it is not: the quotient is
    [- INT_MIN], one more than [INT_MAX], and the division is undefined;
    on every other pair the quotient is representable and returned. *)
Theorem divide_overflows_only_at_min x y :
  representable x = true -> representable y = true -> y <> 0 ->
  (x = INT_MIN /\ y = -1 ->
   truncated_quotient x y = INT_MAX + 1 /\
   representable (truncated_quotient x y) = false /\
   divide x y = Undefined) /\
  (~ (x = INT_MIN /\ y = -1) ->
   representable (truncated_quotient x y) = true /\
   divide x y = Ret (truncated_quotient x y)).
Proof.
  intros Hx Hy Hy0. split.
  - intros [-> ->]. repeat split; reflexivity.
  - intros Hne.
    assert (Hr : representable (truncated_quotient x y) = true).
    { rewrite <- quot_is_truncated by assumption.
      now apply quot_representable. }
    split; [assumption | now apply divide_defined].
Qed.

Lemma divide_overflows_at_min :
  (representable INT_MIN = true /\ representable (-1) = true /\ -1 <> 0) /\
  truncated_quotient INT_MIN (-1) = 2147483648 /\
  representable (truncated_quotient INT_MIN (-1)) = false /\
  divide INT_MIN (-1) = Undefined.
Proof.
  split; [split; [|split]; try reflexivity; lia|].
  apply (divide_overflows_only_at_min INT_MIN (-1));
    [reflexivity | reflexivity | lia | split; reflexivity].
Defined.

(** C2: when the two arguments are numerals and the second is zero, [main]
    calls [divide] with the zero divisor and [divide] divides by it:
    nothing in between tests for zero.  The run is undefined from there
    on; it neither returns nor throws, and nothing was printed. *)
Theorem division_by_zero_unguarded prog a1 a2 x :
  stoi a1 = Ret x -> stoi a2 = Ret 0 ->
  divide x 0 = Undefined /\
  invoke prog [a1; a2] = ([EStoi a1; EStoi a2; EDivide x 0], Undefined) /\
  stdout (fst (invoke prog [a1; a2])) = "".
Proof.
  intros H1 H2.
  rewrite invoke_two_arguments, main_two_arguments, H1, H2, divide_by_zero.
  repeat split.
Qed.

Lemma division_by_zero_unguarded_10_0 :
  (stoi "10" = Ret 10 /\ stoi "0" = Ret 0) /\
  divide 10 0 = Undefined /\
  invoke "divide" ["10"; "0"]
  = ([EStoi "10"; EStoi "0"; EDivide 10 0], Undefined) /\
  stdout (fst (invoke "divide" ["10"; "0"])) = "".
Proof.
  split; [split; reflexivity|].
  apply (division_by_zero_unguarded "divide" "10" "0" 10); reflexivity.
Defined.

(** ** The argument count *)

(** C3: when the number of arguments after the program name is not two,
    the only call [main] performs is the [printf] of the line
    [Two integer arguments required]: no argument is parsed and nothing is
    divided.  That line is all of the standard output, and the value
    returned, as well as the exit status made of it, is not zero. *)
Theorem usage_on_wrong_argument_count prog args :
  List.length args <> 2%nat ->
  exists code,
    invoke prog args
    = ([EPrintf (String.append "Two integer arguments required" nl)],
       Ret code) /\
    stdout (fst (invoke prog args))
    = String.append "Two integer arguments required" nl /\
    code <> 0 /\ exit_status code <> 0.
Proof.
  intros Hl. exists (-1). rewrite invoke_wrong_count by assumption.
  repeat split; discriminate.
Qed.

Lemma usage_on_wrong_argument_count_one_argument :
  List.length ["10"] <> 2%nat /\
  exists code,
    invoke "divide" ["10"]
    = ([EPrintf (String.append "Two integer arguments required" nl)],
       Ret code) /\
    stdout (fst (invoke "divide" ["10"]))
    = String.append "Two integer arguments required" nl /\
    code <> 0 /\ exit_status code <> 0.
Proof.
  split; [cbn; lia|].
  apply (usage_on_wrong_argument_count "divide" ["10"]). cbn. lia.
Defined.

(** C9: on a wrong argument count [main] returns [-1], which the parent
    process observes as the exit status 255. *)
Theorem wrong_count_returns_minus_one argc argv :
  argc <> 3 ->
  snd (main argc argv) = Ret (-1) /\ exit_status (-1) = 255.
Proof.
  intros Hc. rewrite main_wrong_count by assumption. split; reflexivity.
Qed.

Lemma wrong_count_returns_minus_one_no_argument :
  1 <> 3 /\
  snd (main 1 ["divide"]) = Ret (-1) /\ exit_status (-1) = 255.
Proof.
  split; [lia|].
  apply (wrong_count_returns_minus_one 1 ["divide"]). lia.
Defined.

(** ** The printed equation *)

(** C4: when the two arguments parse as the integers [x] and [y], [y] is
    not zero and the quotient [z] of [x] by [y] is representable, the
    standard output is the decimal numerals of [x], [y] and [z] laid out as
    [<x> / <y> = <z>] and followed by a newline, and [main] returns zero.
    The numerals are the canonical ones: [stoi] reads each back. *)
Theorem two_integers_print_equation prog a1 a2 x y :
  stoi a1 = Ret x -> stoi a2 = Ret y -> y <> 0 ->
  representable (truncated_quotient x y) = true ->
  let z := truncated_quotient x y in
  stdout (fst (invoke prog [a1; a2]))
  = String.append (fmt_d x) (String.append " / "
      (String.append (fmt_d y) (String.append " = "
        (String.append (fmt_d z) nl)))) /\
  snd (invoke prog [a1; a2]) = Ret 0 /\
  exit_status 0 = 0 /\
  stoi (fmt_d x) = Ret x /\ stoi (fmt_d y) = Ret y /\ stoi (fmt_d z) = Ret z.
Proof.
  intros H1 H2 Hy0 Hz z.
  rewrite invoke_two_arguments, main_two_arguments, H1, H2.
  rewrite (divide_defined x y Hy0 Hz). fold z.
  apply stoi_ret_inv in H1 as (_ & _ & Hx).
  apply stoi_ret_inv in H2 as (_ & _ & Hy).
  cbn [fst snd stdout]. rewrite append_empty_r.
  split; [reflexivity|]. split; [reflexivity|]. split; [reflexivity|].
  split; [|split]; now apply stoi_fmt_d.
Qed.

Lemma two_integers_print_equation_7_minus_2 :
  (stoi "7" = Ret 7 /\ stoi "-2" = Ret (-2) /\ -2 <> 0 /\
   representable (truncated_quotient 7 (-2)) = true) /\
  stdout (fst (invoke "divide" ["7"; "-2"]))
  = String.append "7 / -2 = -3" nl /\
  snd (invoke "divide" ["7"; "-2"]) = Ret 0.
Proof.
  split; [split; [|split; [|split]]; try reflexivity; lia|].
  pose proof (two_integers_print_equation "divide" "7" "-2" 7 (-2)
                eq_refl eq_refl ltac:(lia) eq_refl) as H.
  cbv zeta in H. destruct H as (Hout & Hret & _).
  split; [exact Hout | exact Hret].
Defined.

(** C5: with the arguments [10] and [3] the program prints the line
    [10 / 3 = 3] and returns 0; with [-10] and [3] it prints
    [-10 / 3 = -3] and returns 0. *)
Theorem scenarios_10_3 prog :
  (stdout (fst (invoke prog ["10"; "3"])) = String.append "10 / 3 = 3" nl /\
   snd (invoke prog ["10"; "3"]) = Ret 0) /\
  (stdout (fst (invoke prog ["-10"; "3"])) = String.append "-10 / 3 = -3" nl /\
   snd (invoke prog ["-10"; "3"]) = Ret 0) /\
  exit_status 0 = 0.
Proof. repeat split. Qed.

(** ** Arguments that do not parse *)

Lemma base10_integer_text_numeral s :
  base10_integer_text s = true -> numeral_digits s <> [].
Proof.
  unfold base10_integer_text, numeral_digits.
  destruct s as [|c s]; [discriminate|].
  assert (Hhead : forall d t,
             all_digits (String d t) = true ->
             isspace d = false /\ digits_prefix (String d t) <> []).
  { intros d t Hd. cbn in Hd. apply andb_true_iff in Hd as [Hd _].
    cbn [digits_prefix]. rewrite Hd. split; [|discriminate].
    revert Hd. unfold isdigit, isspace. cbv zeta.
    set (n := Z.of_N (N_of_ascii d)).
    rewrite andb_true_iff, !Z.leb_le. intros [H1 H2].
    destruct (Z.eqb_spec n 32); [lia|].
    destruct (Z.leb_spec 9 n); destruct (Z.leb_spec n 13); cbn; lia. }
  destruct (Ascii.eqb c "-") eqn:Hm.
  - apply Ascii.eqb_eq in Hm as ->. cbn [orb skip_space].
    change (isspace "-") with false. cbv iota.
    unfold split_sign. change (Ascii.eqb "-" "-") with true. cbn [snd].
    destruct s as [|d t]; [discriminate|]. intros Hd. now apply Hhead.
  - destruct (Ascii.eqb c "+") eqn:Hp.
    + apply Ascii.eqb_eq in Hp as ->. cbn [orb skip_space].
      change (isspace "+") with false. cbv iota.
      unfold split_sign. change (Ascii.eqb "+" "-") with false.
      change (Ascii.eqb "+" "+") with true. cbn [snd].
      destruct s as [|d t]; [discriminate|]. intros Hd. now apply Hhead.
    + cbn [orb]. intros Hd. destruct (Hhead c s Hd) as [Hsp Hne].
      cbn [skip_space]. rewrite Hsp. unfold split_sign. rewrite Hm, Hp.
      exact Hne.
Qed.

(** Every text the amended C6 speaks of is one the claim speaks of: a text
    that [stoi] cannot convert is not a valid base-10 integer, or its
    value is outside of the range of [int]. *)
Lemma unparsable_not_integer_or_overflow s :
  unparsable s ->
  base10_integer_text s = false \/ representable (numeral_value s) = false.
Proof.
  intros [Hd | Hr]; [left | now right].
  destruct (base10_integer_text s) eqn:Hb; [|reflexivity].
  now apply base10_integer_text_numeral in Hb.
Qed.

(** C6, as stated, fails at the arguments [12abc] and [3]: the first is
    not a valid base-10 integer, yet [stoi] converts the numeral it
    starts with and ignores the rest, so the run prints a result line and
    returns zero. *)
Lemma trailing_text_prints_result :
  base10_integer_text "12abc" = false /\
  stdout (fst (invoke "divide" ["12abc"; "3"]))
  = String.append "12 / 3 = 4" nl /\
  snd (invoke "divide" ["12abc"; "3"]) = Ret 0.
Proof. split; [|split]; reflexivity. Qed.

(** C6, amended: with two arguments of which one does not start (after
    white space and a sign) with a decimal numeral, or starts with one
    outside of the range of [int], an exception leaves [main]: the calls
    performed are those of [stoi] up to the one that throws, so no line is
    printed, neither the equation nor the line about the arguments
    required. *)
Theorem parse_failure_unhandled prog a1 a2 :
  unparsable a1 \/ unparsable a2 ->
  exists e,
    snd (invoke prog [a1; a2]) = Throw e /\
    (fst (invoke prog [a1; a2]) = [EStoi a1] \/
     fst (invoke prog [a1; a2]) = [EStoi a1; EStoi a2]) /\
    stdout (fst (invoke prog [a1; a2])) = "" /\
    forall text, ~ In (EPrintf text) (fst (invoke prog [a1; a2])).
Proof.
  intros Hu. rewrite invoke_two_arguments, main_two_arguments.
  destruct (stoi_cases a1) as [(x & H1 & _) | (e & H1 & _)]; rewrite H1.
  - destruct (stoi_cases a2) as [(y & H2 & _) | (e & H2 & _)]; rewrite H2.
    + exfalso. destruct Hu as [Hu | Hu];
        apply stoi_throws_iff in Hu as [e He]; congruence.
    + exists e. cbn. split; [reflexivity|]. split; [now right|].
      split; [reflexivity|]. intros text [H | [H | []]]; discriminate.
  - exists e. cbn. split; [reflexivity|]. split; [now left|].
    split; [reflexivity|]. intros text [H | []]; discriminate.
Qed.

Lemma parse_failure_unhandled_examples :
  (unparsable "abc" /\ unparsable "2147483648") /\
  (exists e, snd (invoke "divide" ["abc"; "3"]) = Throw e /\
             stdout (fst (invoke "divide" ["abc"; "3"])) = "") /\
  (exists e, snd (invoke "divide" ["10"; "2147483648"]) = Throw e /\
             stdout (fst (invoke "divide" ["10"; "2147483648"])) = "").
Proof.
  assert (Ha : unparsable "abc") by (left; reflexivity).
  assert (Hb : unparsable "2147483648") by (right; reflexivity).
  split; [split; assumption|]. split.
  - destruct (parse_failure_unhandled "divide" "abc" "3" (or_introl Ha))
      as (e & He & _ & Hout & _).
    exists e. split; assumption.
  - destruct (parse_failure_unhandled "divide" "10" "2147483648"
                (or_intror Hb)) as (e & He & _ & Hout & _).
    exists e. split; assumption.
Defined.

(** ** The exit status *)




(** * Further properties of the code *)

(** ** [divide] *)

Lemma divide_quot x y :
  representable x = true -> representable y = true -> y <> 0 ->
  ~ (x = INT_MIN /\ y = -1) ->
  divide x y = Ret (Z.quot x y).
Proof.
  intros Hx Hy Hy0 Hne.
  rewrite (quot_is_truncated x y Hy0). apply divide_defined; [assumption|].
  rewrite <- quot_is_truncated by assumption. now apply quot_representable.
Qed.

Lemma representable_opp x :
  representable x = true -> x <> INT_MIN -> representable (- x) = true.
Proof.
  rewrite !representable_iff.
  change INT_MIN with (-2147483648). change INT_MAX with 2147483647. lia.
Qed.

(** X1: a value returned by [divide] is an [int] whose magnitude is at
    most that of the dividend, and multiplying it back by the divisor
    does not exceed the dividend in magnitude either. *)
Theorem divide_result_bounded x y z :
  divide x y = Ret z ->
  representable z = true /\
  Z.abs z <= Z.abs x /\ Z.abs (z * y) <= Z.abs x.
Proof.
  intros H. apply divide_ret_inv in H as (Hy & -> & Hr).
  split; [assumption|].
  rewrite <- quot_is_truncated by assumption.
  rewrite Z.abs_mul, abs_quot_le by assumption.
  assert (Hpos : 0 < Z.abs y) by lia.
  split.
  - apply Z.div_le_upper_bound; [assumption | nia].
  - rewrite Z.mul_comm. apply Z.mul_div_le. assumption.
Qed.

Lemma divide_result_bounded_minus_7_2 :
  divide (-7) 2 = Ret (-3) /\
  representable (-3) = true /\
  Z.abs (-3) <= Z.abs (-7) /\ Z.abs (-3 * 2) <= Z.abs (-7).
Proof.
  split; [reflexivity|].
  apply (divide_result_bounded (-7) 2 (-3)). reflexivity.
Defined.

(** X2: [divide] is odd in each operand.  For [int]s [x] and [y] other
    than [INT_MIN], with [y] nonzero, negating the dividend or the divisor
    negates the quotient and negating both leaves it unchanged. *)
Theorem divide_sign_symmetry x y :
  representable x = true -> representable y = true -> y <> 0 ->
  x <> INT_MIN -> y <> INT_MIN ->
  exists q,
    divide x y = Ret q /\
    divide (- x) y = Ret (- q) /\
    divide x (- y) = Ret (- q) /\
    divide (- x) (- y) = Ret q.
Proof.
  intros Hx Hy Hy0 Hxm Hym.
  pose proof (representable_opp x Hx Hxm) as Hnx.
  pose proof (representable_opp y Hy Hym) as Hny.
  assert (Hxn : - x <> INT_MIN).
  { apply representable_iff in Hx. revert Hx.
    change INT_MIN with (-2147483648). change INT_MAX with 2147483647. lia. }
  exists (Z.quot x y). split; [|split; [|split]].
  - apply divide_quot; tauto.
  - rewrite <- Z.quot_opp_l by assumption. apply divide_quot; tauto.
  - rewrite <- Z.quot_opp_r by assumption. apply divide_quot; try tauto; lia.
  - rewrite <- (Z.quot_opp_opp x y) by assumption.
    apply divide_quot; try tauto; lia.
Qed.

Lemma divide_sign_symmetry_7_2 :
  exists q,
    divide 7 2 = Ret q /\ divide (-7) 2 = Ret (- q) /\
    divide 7 (-2) = Ret (- q) /\ divide (-7) (-2) = Ret q.
Proof.
  apply (divide_sign_symmetry 7 2);
    [reflexivity | reflexivity | lia | | ];
    change INT_MIN with (-2147483648); lia.
Defined.

(** X3: [divide] against the division that rounds toward minus infinity.
    The two agree when the operands have the same sign or the division is
    exact; otherwise [divide] returns one more. *)
Theorem divide_against_floor x y :
  representable x = true -> representable y = true -> y <> 0 ->
  ~ (x = INT_MIN /\ y = -1) ->
  divide x y = Ret (floor_adjusted x y).
Proof.
  intros Hx Hy Hy0 Hne. rewrite divide_quot by assumption. f_equal.
  unfold floor_adjusted.
  pose proof (Z.quot_rem' x y) as Hqr.
  pose proof (Z.rem_bound_abs x y Hy0) as Hb.
  pose proof (Z.rem_sign_mul x y Hy0) as Hs.
  set (q := Z.quot x y) in *. set (r := Z.rem x y) in *.
  destruct (Z.eq_dec r 0) as [Hr0 | Hr0].
  - assert (Hx' : x = q * y) by lia.
    rewrite Hx', Z.mod_mul, Z.div_mul by assumption.
    now rewrite Z.eqb_refl, orb_true_r.
  - assert (Hx0 : x <> 0).
    { intros Hx0. apply Hr0. unfold r. rewrite Hx0. now apply Z.rem_0_l. }
    assert (Hrx : (0 < r /\ 0 < x) \/ (r < 0 /\ x < 0)) by nia.
    destruct (Z.eqb_spec (Z.sgn x) (Z.sgn y)) as [Hsg | Hsg]; cbn [orb].
    + assert (Hr : 0 <= r < y \/ y < r <= 0) by lia.
      eapply Z.div_unique; [exact Hr | exact Hqr].
    + assert (Hr : 0 <= r + y < y \/ y < r + y <= 0) by lia.
      assert (Hd : q - 1 = x / y).
      { eapply Z.div_unique; [exact Hr | lia]. }
      assert (Hm : r + y = x mod y).
      { eapply Z.mod_unique with (q := q - 1); [exact Hr | lia]. }
      destruct (Z.eqb_spec (x mod y) 0) as [H0 | H0]; lia.
Qed.

Lemma divide_against_floor_minus_7_2 :
  divide (-7) 2 = Ret (-7 / 2 + 1) /\ divide 7 2 = Ret (7 / 2) /\
  divide (-6) 2 = Ret (-6 / 2).
Proof.
  split; [|split].
  - apply (divide_against_floor (-7) 2); [reflexivity | reflexivity | lia | lia].
  - apply (divide_against_floor 7 2); [reflexivity | reflexivity | lia | lia].
  - apply (divide_against_floor (-6) 2); [reflexivity | reflexivity | lia | lia].
Defined.

(** X4: [divide] undoes a multiplication.  When [q], [y] and their product
    are [int]s and [y] is not zero, dividing the product by [y] returns
    [q]. *)
Theorem divide_product x y q :
  representable q = true -> representable y = true ->
  representable x = true -> y <> 0 -> x = q * y ->
  divide x y = Ret q.
Proof.
  intros Hq Hy Hx Hy0 ->.
  apply representable_iff in Hq.
  rewrite divide_quot; try assumption.
  - now rewrite Z.quot_mul.
  - intros [Hm ->]. revert Hq Hm.
    change INT_MIN with (-2147483648). change INT_MAX with 2147483647. lia.
Qed.

Lemma divide_product_minus_12 :
  divide (-12) 4 = Ret (-3).
Proof.
  apply (divide_product (-12) 4 (-3));
    [reflexivity | reflexivity | reflexivity | lia | reflexivity].
Defined.

(** X5: for a positive divisor [divide] is monotone in the dividend. *)
Theorem divide_monotone x x' y :
  representable x = true -> representable x' = true ->
  representable y = true -> 0 < y -> x <= x' ->
  exists q q', divide x y = Ret q /\ divide x' y = Ret q' /\ q <= q'.
Proof.
  intros Hx Hx' Hy Hpos Hle.
  exists (Z.quot x y), (Z.quot x' y). split; [|split].
  - apply divide_quot; try assumption; lia.
  - apply divide_quot; try assumption; lia.
  - now apply Z.quot_le_mono.
Qed.

Lemma divide_monotone_minus_7_5 :
  exists q q', divide (-7) 2 = Ret q /\ divide 5 2 = Ret q' /\ q <= q'.
Proof.
  apply (divide_monotone (-7) 5 2);
    [reflexivity | reflexivity | reflexivity | lia | lia].
Defined.

(** ** [main] *)

Lemma invoke_two_parsed prog a1 a2 x y :
  stoi a1 = Ret x -> stoi a2 = Ret y ->
  invoke prog [a1; a2] =
  match divide x y with
  | Ret z =>
      ([EStoi a1; EStoi a2; EDivide x y; EPrintf (result_line x y z)], Ret 0)
  | Throw e => ([EStoi a1; EStoi a2; EDivide x y], Throw e)
  | Undefined => ([EStoi a1; EStoi a2; EDivide x y], Undefined)
  end.
Proof.
  intros H1 H2. now rewrite invoke_two_arguments, main_two_arguments, H1, H2.
Qed.

Lemma stoi_unparsable s :
  unparsable s -> stoi s = Throw (stoi_exception s).
Proof.
  unfold unparsable, stoi_exception. rewrite stoi_spec.
  destruct (numeral_digits s) as [|d ds]; [reflexivity|].
  intros [H | H]; [discriminate | now rewrite H].
Qed.

(** X6: the values [main] returns.  It returns [-1] exactly when the
    number of arguments is not two, and [0] exactly when there are two
    arguments, both are read as integers, the second is not zero and they
    are not [INT_MIN] and [-1]; it returns no other value. *)
Theorem main_return_values prog args code :
  snd (invoke prog args) = Ret code <->
  (code = -1 /\ List.length args <> 2%nat) \/
  (code = 0 /\
   exists a1 a2 x y,
     args = [a1; a2] /\ stoi a1 = Ret x /\ stoi a2 = Ret y /\
     y <> 0 /\ ~ (x = INT_MIN /\ y = -1)).
Proof.
  destruct args as [|a1 [|a2 [|a3 args]]];
    try (rewrite invoke_wrong_count by (cbn; lia); cbn; split;
         [ intros [= <-]; left; split; [reflexivity | lia]
         | intros [[-> _] | (_ & b1 & b2 & x & y & Habs & _)];
           [reflexivity | discriminate] ]).
  rewrite invoke_two_arguments, main_two_arguments.
  destruct (stoi a1) as [x | e |] eqn:H1.
  2,3: cbn; split; [discriminate|];
       intros [[_ Hl] | (_ & b1 & b2 & x & y & [= <- <-] & Hb1 & _)];
       [cbn in Hl; lia | congruence].
  destruct (stoi a2) as [y | e |] eqn:H2.
  2,3: cbn; split; [discriminate|];
       intros [[_ Hl] | (_ & b1 & b2 & x' & y & [= <- <-] & _ & Hb2 & _)];
       [cbn in Hl; lia | congruence].
  pose proof (stoi_ret_inv _ _ H1) as (_ & _ & Hx).
  pose proof (stoi_ret_inv _ _ H2) as (_ & _ & Hy).
  pose proof (divide_undefined_iff x y Hx Hy) as Hu.
  destruct (divide x y) as [z | e |] eqn:Hd; cbn.
  - split.
    + intros [= <-]. right. split; [reflexivity|].
      exists a1, a2, x, y. repeat split; try assumption.
      * intros ->. destruct Hu as [_ Hu]. discriminate Hu. now left.
      * intros Hm. destruct Hu as [_ Hu]. discriminate Hu. now right.
    + intros [[_ Hl] | [-> _]]; [cbn in Hl; lia | reflexivity].
  - now apply divide_never_throws in Hd.
  - split; [discriminate|].
    intros [[_ Hl] | (_ & b1 & b2 & x' & y' & [= <- <-] & Hb1 & Hb2 & Hy0 & Hm)];
      [cbn in Hl; lia|].
    rewrite H1 in Hb1. rewrite H2 in Hb2.
    injection Hb1 as <-. injection Hb2 as <-.
    destruct Hu as [Hu _]. destruct (Hu eq_refl); tauto.
Qed.

Lemma main_return_values_three_arguments :
  snd (invoke "divide" ["1"; "2"; "3"]) = Ret (-1).
Proof.
  apply (main_return_values "divide" ["1"; "2"; "3"] (-1)).
  left. split; [reflexivity | cbn; lia].
Defined.

(** X7: a text that [stoi] cannot convert in the first argument ends the
    run there.  The exception is [invalid_argument] when the text does not
    start with a numeral and [out_of_range] otherwise; the second argument
    is not looked at, so that not even a zero divisor is reached. *)
Theorem first_argument_failure prog a1 a2 :
  unparsable a1 ->
  invoke prog [a1; a2] = ([EStoi a1], Throw (stoi_exception a1)).
Proof.
  intros Hu.
  rewrite invoke_two_arguments, main_two_arguments.
  now rewrite (stoi_unparsable a1 Hu).
Qed.

Lemma first_argument_failure_examples :
  invoke "divide" ["x"; "0"] = ([EStoi "x"], Throw invalid_argument) /\
  invoke "divide" ["4294967296"; "y"]
  = ([EStoi "4294967296"], Throw out_of_range).
Proof.
  split.
  - apply (first_argument_failure "divide" "x" "0"). left. reflexivity.
  - apply (first_argument_failure "divide" "4294967296" "y").
    right. reflexivity.
Defined.

(** X8: the program reads its own output.  When the two arguments are read
    as the integers [x] and [y], running the program on the numerals it
    prints for [x] and [y] gives the same output and the same result. *)
Theorem operands_printed_in_normal_form prog a1 a2 x y :
  stoi a1 = Ret x -> stoi a2 = Ret y ->
  stdout (fst (invoke prog [fmt_d x; fmt_d y]))
  = stdout (fst (invoke prog [a1; a2])) /\
  snd (invoke prog [fmt_d x; fmt_d y]) = snd (invoke prog [a1; a2]).
Proof.
  intros H1 H2.
  pose proof (stoi_ret_inv _ _ H1) as (_ & _ & Hx).
  pose proof (stoi_ret_inv _ _ H2) as (_ & _ & Hy).
  rewrite (invoke_two_parsed prog a1 a2 x y H1 H2).
  rewrite (invoke_two_parsed prog (fmt_d x) (fmt_d y) x y
             (stoi_fmt_d x Hx) (stoi_fmt_d y Hy)).
  destruct (divide x y); split; reflexivity.
Qed.

Lemma operands_printed_in_normal_form_example :
  (stoi "  +007 apples" = Ret 7 /\ stoi "-02" = Ret (-2)) /\
  stdout (fst (invoke "divide" ["7"; "-2"]))
  = stdout (fst (invoke "divide" ["  +007 apples"; "-02"])) /\
  snd (invoke "divide" ["7"; "-2"])
  = snd (invoke "divide" ["  +007 apples"; "-02"]).
Proof.
  split; [split; reflexivity|].
  apply (operands_printed_in_normal_form "divide" "  +007 apples" "-02" 7 (-2));
    reflexivity.
Defined.

(** X9: [main] computes [divide] on the texts of integers.  For all
    [int]s [x] and [y], the run on their decimal numerals prints the
    equation with the value of [divide x y] and returns zero when that
    division is defined, and prints nothing when it is not. *)
Theorem main_on_numerals prog x y :
  representable x = true -> representable y = true ->
  match divide x y with
  | Ret z =>
      stdout (fst (invoke prog [fmt_d x; fmt_d y])) = result_line x y z /\
      snd (invoke prog [fmt_d x; fmt_d y]) = Ret 0
  | Throw _ => False
  | Undefined =>
      stdout (fst (invoke prog [fmt_d x; fmt_d y])) = "" /\
      snd (invoke prog [fmt_d x; fmt_d y]) = Undefined
  end.
Proof.
  intros Hx Hy.
  rewrite (invoke_two_parsed prog (fmt_d x) (fmt_d y) x y
             (stoi_fmt_d x Hx) (stoi_fmt_d y Hy)).
  destruct (divide x y) as [z | e |] eqn:Hd.
  - cbn [fst snd stdout]. now rewrite append_empty_r.
  - now apply divide_never_throws in Hd.
  - split; reflexivity.
Qed.

Lemma main_on_numerals_min_2 :
  stdout (fst (invoke "divide" [fmt_d INT_MIN; fmt_d 2]))
  = String.append "-2147483648 / 2 = -1073741824" nl /\
  snd (invoke "divide" [fmt_d INT_MIN; fmt_d 2]) = Ret 0.
Proof.
  apply (main_on_numerals "divide" INT_MIN 2); reflexivity.
Defined.

(** ** The shape of the output *)

Lemma count_newlines_append s t :
  count_newlines (String.append s t)
  = (count_newlines s + count_newlines t)%nat.
Proof.
  induction s as [|c s IH]; cbn; [reflexivity | rewrite IH; lia].
Qed.

Lemma length_append s t :
  String.length (String.append s t)
  = (String.length s + String.length t)%nat.
Proof.
  induction s as [|c s IH]; cbn; [reflexivity | now rewrite IH].
Qed.

Lemma append_assoc s t u :
  String.append (String.append s t) u = String.append s (String.append t u).
Proof.
  induction s as [|c s IH]; cbn; [reflexivity | now rewrite IH].
Qed.

Lemma digit_char_not_newline d :
  0 <= d <= 9 -> Ascii.eqb (digit_char d) (ascii_of_N 10) = false.
Proof.
  intros Hd.
  assert (H : d = 0 \/ d = 1 \/ d = 2 \/ d = 3 \/ d = 4 \/
              d = 5 \/ d = 6 \/ d = 7 \/ d = 8 \/ d = 9) by lia.
  repeat (destruct H as [-> | H]; [reflexivity|]). subst. reflexivity.
Qed.

Lemma count_newlines_utoa fuel : forall n acc,
  count_newlines (utoa fuel n acc) = count_newlines acc.
Proof.
  induction fuel as [|fuel IH]; intros n acc; [reflexivity|].
  pose proof (Z.mod_pos_bound n 10 ltac:(lia)) as Hm.
  pose proof (digit_char_not_newline (n mod 10) ltac:(lia)) as Hc.
  cbn [utoa]. destruct (n / 10 =? 0).
  - cbn [count_newlines]. now rewrite Hc.
  - rewrite IH. cbn [count_newlines]. now rewrite Hc.
Qed.

Lemma count_newlines_fmt_d z : count_newlines (fmt_d z) = 0%nat.
Proof.
  unfold fmt_d. destruct (z <? 0).
  - cbn [count_newlines]. change (Ascii.eqb "-" (ascii_of_N 10)) with false.
    now rewrite count_newlines_utoa.
  - now rewrite count_newlines_utoa.
Qed.

Lemma utoa_length fuel : forall k n acc,
  (1 <= k)%nat -> 0 <= n < 10 ^ Z.of_nat k ->
  (String.length (utoa fuel n acc) <= k + String.length acc)%nat.
Proof.
  induction fuel as [|fuel IH]; intros k n acc Hk Hn; [cbn; lia|].
  cbn [utoa]. destruct (Z.eqb_spec (n / 10) 0) as [H0 | H0]; [cbn; lia|].
  destruct k as [|[|k]]; [lia | |].
  - exfalso. apply H0. apply Z.div_small. cbn in Hn. lia.
  - etransitivity; [apply (IH (S k)); [lia|] | cbn; lia].
    rewrite (Nat2Z.inj_succ (S k)), Z.pow_succ_r in Hn by lia.
    split; [apply Z.div_pos; lia | apply Z.div_lt_upper_bound; lia].
Qed.

Lemma fmt_d_length z :
  representable z = true -> (String.length (fmt_d z) <= 11)%nat.
Proof.
  rewrite representable_iff.
  change INT_MIN with (-2147483648). change INT_MAX with 2147483647.
  intros Hz. unfold fmt_d. destruct (Z.ltb_spec z 0) as [Hneg | Hpos].
  - cbn [String.length].
    pose proof (utoa_length (digits_fuel (- z)) 10 (- z) EmptyString
                  ltac:(lia)) as H.
    change (10 ^ Z.of_nat 10) with 10000000000 in H.
    specialize (H ltac:(lia)). cbn [String.length] in H. lia.
  - pose proof (utoa_length (digits_fuel z) 10 z EmptyString
                  ltac:(lia)) as H.
    change (10 ^ Z.of_nat 10) with 10000000000 in H.
    specialize (H ltac:(lia)). cbn [String.length] in H. lia.
Qed.

Lemma stdout_cases prog args :
  (snd (invoke prog args) = Ret (-1) /\
   stdout (fst (invoke prog args)) = usage) \/
  (exists x y z,
     representable x = true /\ representable y = true /\
     representable z = true /\
     snd (invoke prog args) = Ret 0 /\
     stdout (fst (invoke prog args)) = result_line x y z) \/
  ((forall code, snd (invoke prog args) <> Ret code) /\
   stdout (fst (invoke prog args)) = "").
Proof.
  destruct args as [|a1 [|a2 [|a3 args]]];
    try (left; rewrite invoke_wrong_count by (cbn; lia); split; reflexivity).
  right. rewrite invoke_two_arguments, main_two_arguments.
  destruct (stoi a1) as [x | e |] eqn:H1;
    [| right; split; [discriminate | reflexivity] ..].
  destruct (stoi a2) as [y | e |] eqn:H2;
    [| right; split; [discriminate | reflexivity] ..].
  destruct (divide x y) as [z | e |] eqn:Hd;
    [| right; split; [discriminate | reflexivity] ..].
  left. exists x, y, z.
  apply stoi_ret_inv in H1 as (_ & _ & Hx).
  apply stoi_ret_inv in H2 as (_ & _ & Hy).
  apply divide_ret_inv in Hd as (_ & _ & Hz).
  repeat (split; [assumption|]). split; [reflexivity|].
  cbn [fst stdout]. apply append_empty_r.
Qed.

(** X10: the program prints one line or nothing.  When [main] returns, the
    standard output is a single line: a text free of newlines followed by
    one newline.  When it does not return, because of an exception or of an
    undefined division, nothing at all was printed. *)
Theorem output_one_line_or_nothing prog args :
  match snd (invoke prog args) with
  | Ret _ =>
      exists body,
        stdout (fst (invoke prog args)) = String.append body nl /\
        count_newlines body = 0%nat
  | _ => stdout (fst (invoke prog args)) = ""
  end.
Proof.
  destruct (stdout_cases prog args)
    as [[Hr Ho] | [(x & y & z & _ & _ & _ & Hr & Ho) | [Hr Ho]]];
    rewrite ?Hr, Ho.
  - exists "Two integer arguments required". split; reflexivity.
  - exists (String.append (fmt_d x) (String.append " / "
             (String.append (fmt_d y) (String.append " = " (fmt_d z))))).
    split.
    + unfold result_line. now rewrite !append_assoc.
    + rewrite !count_newlines_append, !count_newlines_fmt_d. reflexivity.
  - destruct (snd (invoke prog args)) as [code | e |];
      [now destruct (Hr code) | reflexivity | reflexivity].
Qed.

(** X11: the standard output is never longer than 40 characters: three
    numerals of at most 11 characters each, the six characters between
    them and the newline. *)
Theorem output_length_bound prog args :
  (String.length (stdout (fst (invoke prog args))) <= 40)%nat.
Proof.
  destruct (stdout_cases prog args)
    as [[_ Ho] | [(x & y & z & Hx & Hy & Hz & _ & Ho) | [_ Ho]]];
    rewrite Ho.
  - cbn. lia.
  - unfold result_line. rewrite !length_append.
    pose proof (fmt_d_length x Hx). pose proof (fmt_d_length y Hy).
    pose proof (fmt_d_length z Hz). cbn. lia.
  - cbn. lia.
Qed.
